(** * OAuth2 server glue of opencollective-api

    A shallow embedding of

    - [server/lib/oauth/index.ts]: the token codec ([CustomTokenHandler]),
      the option merging of [CustomOAuth2Server.token], the Express
      middlewares of [OAuthServer] with [handleResponse] and [handleError],
      and [authorizeAuthenticateHandler];
    - the GraphQL [Application] object type (its field resolvers).

    JavaScript objects used as dictionaries (option bags, header sets, JWT
    headers and payloads) are finite maps from property names to values.
    Calls on the Express response and on [next] are recorded, in order, in
    a log that is threaded through the promise chain. *)

From Stdlib Require Import ZArith Ascii.
From stdpp Require Import gmap strings list fin_maps pretty.

Local Open Scope Z_scope.

(** ** JavaScript values and errors *)

Module JS.

(** The values that travel through option bags and JSON documents.  An
    object is kept by reference only: nothing here looks inside one. *)
Inductive Value :=
| VUndefined
| VNull
| VBool (b : bool)
| VNum (n : Z)
| VStr (s : string)
| VObj (ref : positive).

#[global] Instance Value_eq_dec : EqDecision Value.
Proof. solve_decision. Defined.

(** ToBoolean: what [x ? a : b], [!x] and [x && y] test. *)
Definition truthy (v : Value) : bool :=
  match v with
  | VUndefined | VNull => false
  | VBool b => b
  | VNum n => negb (n =? 0)
  | VStr s => negb (String.eqb s EmptyString)
  | VObj _ => true
  end.

(** Reading a property that may be absent: [o.k] is [undefined] then. *)
Definition prop (o : gmap string Value) (k : string) : Value :=
  default VUndefined (o !! k).

(** [String(n)] on an integer. *)
Definition String_ (n : Z) : string := pretty n.

(** The constructor an error object was made with; [instanceof] looks at
    nothing else. *)
Inductive ErrorClass :=
| UnauthorizedRequestErrorC
| InvalidArgumentErrorC
| OtherErrorC.

#[global] Instance ErrorClass_eq_dec : EqDecision ErrorClass.
Proof. solve_decision. Defined.

Record Error := mkError {
  e_class : ErrorClass;
  e_name : string;
  e_message : string;
  e_code : Value
}.

#[global] Instance Error_eq_dec : EqDecision Error.
Proof. solve_decision. Defined.

(** [new UnauthorizedRequestError(message)] and
    [new InvalidArgumentError(message)] of oauth2-server. *)
Definition UnauthorizedRequestError (message : string) : Error :=
  mkError UnauthorizedRequestErrorC "unauthorized_request" message (VNum 401).

Definition InvalidArgumentError (message : string) : Error :=
  mkError InvalidArgumentErrorC "invalid_argument" message (VNum 500).

Definition instanceof_UnauthorizedRequestError (e : Error) : bool :=
  bool_decide (e_class e = UnauthorizedRequestErrorC).

(** The character [U+0022], for string literals that contain it. *)
Definition dquote : string := String "034"%char EmptyString.

(** A call that either throws or returns. *)
Inductive Completion (A : Type) :=
| Throw (e : Error)
| Return (a : A).
Arguments Throw {A} e.
Arguments Return {A} a.

End JS.
Import JS.

(** ** jsonwebtoken *)

Module Jwt.

(** A signature is kept symbolically: the algorithm, the key and the
    signed content.  Verifying under a key recomputes it. *)
Record Signature := mkSignature {
  sig_algorithm : string;
  sig_key : string;
  sig_header : gmap string Value;
  sig_payload : gmap string Value
}.

#[global] Instance Signature_eq_dec : EqDecision Signature.
Proof. solve_decision. Defined.

Record Token := mkToken {
  header : gmap string Value;
  payload : gmap string Value;
  signature : Signature
}.

Record SignOptions := mkSignOptions {
  expiresIn : Z;
  subject : string;
  algorithm : string;
  opt_header : gmap string Value
}.

(** [jwt.sign(payload, secret, options)] at clock [now] (seconds), for an
    object payload without [iat], [exp] or [sub] of its own: the header is
    [{alg, typ}] overridden by [options.header]; the payload gains [iat],
    [exp = iat + expiresIn] and [sub]. *)
Definition sign (claims : gmap string Value) (secret : string)
    (options : SignOptions) (now : Z) : Token :=
  let h := opt_header options ∪
           <["alg" := VStr (algorithm options)]> {["typ" := VStr "JWT"]} in
  let p := <["sub" := VStr (subject options)]>
           (<["exp" := VNum (now + expiresIn options)]>
           (<["iat" := VNum now]> claims)) in
  mkToken h p (mkSignature (algorithm options) secret h p).

(** Signature check of [jwt.verify(token, secret)]. *)
Definition verify_signature (t : Token) (secret : string) : bool :=
  bool_decide (signature t =
               mkSignature (sig_algorithm (signature t)) secret
                           (header t) (payload t)).

End Jwt.

(** ** Sequelize models the code reads *)

Module User.
Record t := mk {
  id : Z;
  CollectiveId : Z
}.
#[global] Instance User_eq_dec : EqDecision t.
Proof. solve_decision. Defined.
End User.

Module ApplicationModel.
Record t := mk {
  id : Z;
  type : string;
  name : option string;
  description : option string;
  apiKey : option string;
  clientId : option string;
  clientSecret : option string;
  callbackUrl : option string;
  CollectiveId : Z
}.
#[global] Instance ApplicationModel_eq_dec : EqDecision t.
Proof. solve_decision. Defined.
End ApplicationModel.

(** The Express request, as far as this code looks into it.  The
    oauth2-server [Request] wrapper copies [remoteUser] over. *)
Record Request := mkRequest {
  remoteUser : option User.t;
  query : gmap string Value
}.

(** ** server/lib/oauth/index.ts *)

Module OAuth.

(** What the file reads from [../../lib/auth] and from [config]. *)
Record AuthLib := mkAuthLib {
  TOKEN_EXPIRATION_SESSION : Z;
  ALGORITHM : string;
  KID : string
}.

Record Config := mkConfig {
  jwtSecret : string
}.

(** The token model handed to [getTokenType]. *)
Record TokenModel := mkTokenModel {
  accessToken : string;
  accessTokenExpiresAt : Z;
  refreshToken : option string;
  user : User.t
}.

(** The object [getTokenType] returns has one method, [valueOf], which
    signs when it is called; its argument is the clock at that moment. *)
Record TokenType := mkTokenType {
  valueOf : Z -> Jwt.Token
}.

(** The oauth2-server [Response]: a status, lower-cased header names and a
    body.  The token endpoint's body is the token type's [valueOf()]. *)
Inductive Body :=
| BodyObject (o : gmap string Value)
| BodyJwt (t : Jwt.Token).

Record Response := mkResponse {
  status : Z;
  headers : gmap string string;
  body : Body
}.

(** [new Response(res)] on an Express response. *)
Definition new_Response : Response := mkResponse 200 ∅ (BodyObject ∅).

(** A handler made by [new CustomTokenHandler(options)]. *)
Record CustomTokenHandler := mkCustomTokenHandler {
  handler_options : gmap string Value
}.

Record CustomOAuth2Server := mkCustomOAuth2Server {
  options : gmap string Value
}.

Record OAuthServer := mkOAuthServer {
  useErrorHandler : bool;
  continueMiddleware : bool;
  server : CustomOAuth2Server
}.

(** The operations of oauth2-server this file calls and does not define.
    Each runs against the protocol response, which it may rewrite, and
    resolves to an object or rejects.  [TokenHandler_handle] receives the
    handler and the [getTokenType] method it dispatches to. *)
Record Library := mkLibrary {
  OAuth2Server_authenticate :
    CustomOAuth2Server -> Request -> option (gmap string Value) ->
    Response -> Completion Value * Response;
  OAuth2Server_authorize :
    CustomOAuth2Server -> Request -> option (gmap string Value) ->
    Response -> Completion Value * Response;
  TokenHandler_handle :
    CustomTokenHandler -> (TokenModel -> TokenType) -> Request ->
    Response -> Completion Value * Response
}.

(** *** Calls on the Express side *)

Inductive Call :=
| res_set (hs : gmap string string)
| res_set_field (field value : string)
| res_status (code : Value)
| res_send (b : option Body)
| res_redirect (location : option string)
| res_locals_oauth (key : string) (v : Value)
| next (e : option Error).

(** The state a middleware run threads: the protocol response object
    shared by the engine, [handleResponse] and [handleError], and the
    calls made so far on [res] and [next]. *)
Record World := mkWorld {
  response : Response;
  calls : list Call
}.

Definition M (A : Type) : Type := World -> Completion A * World.

#[global] Instance M_ret : MRet M := fun A a w => (Return a, w).

#[global] Instance M_bind : MBind M := fun A B f m w =>
  match m w with
  | (Throw e, w') => (Throw e, w')
  | (Return a, w') => f a w'
  end.

(** [p.then(f)], [p.tap(f)] and [p.catch(h)] of bluebird. *)
Definition then_ {A B} (p : M A) (f : A -> M B) : M B := p ≫= f.

Definition tap {A} (p : M A) (f : A -> M unit) : M A :=
  a ← p; f a;; mret a.

Definition catch {A} (p : M A) (h : Error -> M A) : M A := fun w =>
  match p w with
  | (Throw e, w') => h e w'
  | (Return a, w') => (Return a, w')
  end.

Definition call (c : Call) : M unit := fun w =>
  (Return tt, mkWorld (response w) (calls w ++ [c])).

Definition get_response : M Response := fun w => (Return (response w), w).

Definition set_response (r : Response) : M unit := fun w =>
  (Return tt, mkWorld r (calls w)).

(** Running a library operation on the shared protocol response. *)
Definition run_engine {A} (op : Response -> Completion A * Response) : M A :=
  fun w => let '(c, r) := op (response w) in (c, mkWorld r (calls w)).

(** [_.assign(object, ...sources)]: later sources win; a source that is
    [undefined] is skipped. *)
Definition assign (object : gmap string Value)
    (sources : list (option (gmap string Value))) : gmap string Value :=
  foldl (fun acc src => match src with Some s => s ∪ acc | None => acc end)
        object sources.

Inductive Middleware :=
| Authenticate
| Authorize
| Token.

Section WithEnvironment.
Context (auth : AuthLib) (config : Config) (lib : Library).

Definition CustomTokenHandler_new (options : gmap string Value)
  : CustomTokenHandler :=
  mkCustomTokenHandler options.

Definition getTokenType (this : CustomTokenHandler) (model : TokenModel)
  : TokenType :=
  mkTokenType (fun now =>
    Jwt.sign {["access_token" := VStr (accessToken model)]}
             (jwtSecret config)
             (Jwt.mkSignOptions
                (TOKEN_EXPIRATION_SESSION auth)
                (String_ (User.id (user model)))
                (ALGORITHM auth)
                {["kid" := VStr (KID auth)]})
             now).

(** The first argument of [assign] in [CustomOAuth2Server.token]. *)
Definition token_defaults : gmap string Value :=
  {[ "accessTokenLifetime" := VNum (TOKEN_EXPIRATION_SESSION auth);
     "refreshTokenLifetime" := VNum (60 * 60 * 24 * 365);
     "allowExtendedTokenAttributes" := VBool false;
     "requireClientAuthentication" := VObj 1 ]}.

Definition token_options (this : CustomOAuth2Server)
    (opts : option (gmap string Value)) : gmap string Value :=
  assign token_defaults [Some (options this); opts].

Definition CustomOAuth2Server_token (this : CustomOAuth2Server)
    (request : Request) (opts : option (gmap string Value))
  : Response -> Completion Value * Response :=
  let options := token_options this opts in
  let tokenHandler := CustomTokenHandler_new options in
  TokenHandler_handle lib tokenHandler (getTokenType tokenHandler) request.

(** [new OAuthServer(options)]. *)
Definition OAuthServer_new (opts : option (gmap string Value))
  : Completion OAuthServer :=
  let options := default ∅ opts in
  if negb (truthy (prop options "model")) then
    Throw (InvalidArgumentError "Missing parameter: `model`")
  else
    let useErrorHandler :=
      if truthy (prop options "useErrorHandler") then true else false in
    let options := delete "useErrorHandler" options in
    let continueMiddleware :=
      if truthy (prop options "continueMiddleware") then true else false in
    let options := delete "continueMiddleware" options in
    Return (mkOAuthServer useErrorHandler continueMiddleware
                          (mkCustomOAuth2Server options)).

Definition handleResponse : M unit :=
  r ← get_response;
  if status r =? 302 then
    let location := headers r !! "location" in
    set_response (mkResponse (status r) (delete "location" (headers r))
                             (body r));;
    r ← get_response;
    call (res_set (headers r));;
    call (res_redirect location)
  else
    call (res_set (headers r));;
    call (res_status (VNum (status r)));;
    call (res_send (Some (body r))).

(** [handleError.call(this, e, req, res, response, next)]; [with_response]
    tells whether [response] is the protocol response or [null]. *)
Definition handleError (this : OAuthServer) (e : Error)
    (with_response : bool) : M unit :=
  if useErrorHandler this then
    call (next (Some e))
  else
    (if with_response then
       r ← get_response; call (res_set (headers r))
     else mret tt);;
    call (res_status (e_code e));;
    if instanceof_UnauthorizedRequestError e then
      call (res_set_field "WWW-Authenticate"
              ("Bearer realm=" +:+ dquote +:+ "service" +:+ dquote));;
      call (res_send None)
    else
      call (res_send (Some (BodyObject
              {[ "error" := VStr (e_name e);
                 "error_description" := VStr (e_message e) ]}))).

Definition authenticate (this : OAuthServer)
    (opts : option (gmap string Value)) (req : Request) : M unit :=
  catch
    (tap (then_ (mret tt) (fun _ =>
            run_engine (OAuth2Server_authenticate lib (server this) req opts)))
         (fun token =>
            call (res_locals_oauth "token" token);;
            call (next None));;
     mret tt)
    (fun e => handleError this e false).

Definition authorize (this : OAuthServer)
    (opts : option (gmap string Value)) (req : Request) : M unit :=
  catch
    (then_
       (tap (then_ (mret tt) (fun _ =>
               run_engine (OAuth2Server_authorize lib (server this) req opts)))
            (fun code =>
               call (res_locals_oauth "code" code);;
               if continueMiddleware this then call (next None)
               else mret tt))
       (fun _ => handleResponse))
    (fun e => handleError this e true).

Definition token (this : OAuthServer)
    (opts : option (gmap string Value)) (req : Request) : M unit :=
  catch
    (then_
       (tap (then_ (mret tt) (fun _ =>
               run_engine (CustomOAuth2Server_token (server this) req opts)))
            (fun token =>
               call (res_locals_oauth "token" token);;
               if continueMiddleware this then call (next None)
               else mret tt))
       (fun _ => handleResponse))
    (fun e => handleError this e true).

(** The three middlewares, their engine operation, the key under which
    the result goes to [res.locals.oauth], and whether [handleError] is
    given the protocol response. *)
Definition middleware (m : Middleware) (this : OAuthServer)
    (opts : option (gmap string Value)) (req : Request) : M unit :=
  match m with
  | Authenticate => authenticate this opts req
  | Authorize => authorize this opts req
  | Token => token this opts req
  end.

Definition engine_of (m : Middleware) (this : OAuthServer)
    (opts : option (gmap string Value)) (req : Request)
  : Response -> Completion Value * Response :=
  match m with
  | Authenticate => OAuth2Server_authenticate lib (server this) req opts
  | Authorize => OAuth2Server_authorize lib (server this) req opts
  | Token => CustomOAuth2Server_token (server this) req opts
  end.

End WithEnvironment.

Definition locals_key (m : Middleware) : string :=
  match m with
  | Authenticate | Token => "token"
  | Authorize => "code"
  end.

Definition passes_response (m : Middleware) : bool :=
  match m with
  | Authenticate => false
  | Authorize | Token => true
  end.

(** A middleware invoked on a request: the calls it makes, starting from
    a fresh protocol response. *)
Definition run (m : M unit) : list Call :=
  calls (m (mkWorld new_Response [])).2.

(** What a log shows: control was passed on ([next] was called), and a
    reply was written ([res.send] or [res.redirect] was called). *)
Definition is_next (c : Call) : bool :=
  match c with
  | next _ => true
  | _ => false
  end.

Definition is_reply (c : Call) : bool :=
  match c with
  | res_send _ | res_redirect _ => true
  | _ => false
  end.

Definition is_res_call (c : Call) : bool :=
  match c with
  | next _ => false
  | _ => true
  end.

Definition passes_onward (log : list Call) : bool := existsb is_next log.

Definition writes_reply (log : list Call) : bool := existsb is_reply log.

Definition authorizeAuthenticateHandler_handle (req : Request)
  : Completion User.t :=
  match remoteUser req with
  | None => Throw (UnauthorizedRequestError "You must be signed in")
  | Some u => Return u
  end.

End OAuth.
Import OAuth.

(** ** The grant engine's authorize operation *)

Module GrantEngine.

Record Client := mkClient {
  client_id : string;
  redirectUris : list string
}.

Record AuthorizationCode := mkAuthorizationCode {
  authorizationCode : string;
  code_client : string;
  code_user : User.t;
  redirectUri : string;
  scope : option Value;
  expiresAt : Z
}.

Record Store := mkStore {
  clients : list Client;
  codes : list AuthorizationCode
}.

Definition InvalidRequestError (message : string) : Error :=
  mkError OtherErrorC "invalid_request" message (VNum 400).

Definition InvalidClientError (message : string) : Error :=
  mkError OtherErrorC "invalid_client" message (VNum 400).

Definition getClient (store : Store) (cid : string) : option Client :=
  snd <$> list_find (fun c => client_id c = cid) (clients store).

(** Modelled from the spec: the engine's [authorize] operation lives in
    oauth2-server, outside the sources at hand.  It first requires an
    authenticated principal from the authenticate handler it was given and
    fails with that handler's error otherwise; it then checks that the
    client exists and that the redirect URI is one of the client's
    registered URIs, exactly; on success it binds a fresh code with a
    300 s lifetime to client, principal, redirect URI and scope, persists
    it and returns it. *)
Definition authorize (authenticateHandler : Request -> Completion User.t)
    (fresh : string) (now : Z) (request : Request) (store : Store)
  : Completion AuthorizationCode * Store :=
  match authenticateHandler request with
  | Throw e => (Throw e, store)
  | Return principal =>
    match query request !! "client_id", query request !! "redirect_uri" with
    | Some (VStr cid), Some (VStr uri) =>
      match getClient store cid with
      | None => (Throw (InvalidClientError "Invalid client"), store)
      | Some c =>
        if bool_decide (uri ∈ redirectUris c) then
          let ac := mkAuthorizationCode fresh cid principal uri
                      (query request !! "scope") (now + 300) in
          (Return ac, mkStore (clients store) (ac :: codes store))
        else
          (Throw (InvalidClientError "Invalid client: redirect_uri"), store)
      end
    | _, _ => (Throw (InvalidRequestError "Missing parameter"), store)
    end
  end.

End GrantEngine.

(** ** The GraphQL [Application] object type *)

Module UserToken.
Record t := mk {
  ApplicationId : Z;
  UserId : Z;
  user : User.t;
  client : ApplicationModel.t;
  accessTokenExpiresAt : Z;
  createdAt : Z;
  updatedAt : Z
}.
End UserToken.

Record Collective := mkCollective {
  collective_id : Z;
  slug : string
}.

(** The tables the resolvers read. *)
Record Database := mkDatabase {
  UserTokens : list UserToken.t;
  Collectives : gmap Z Collective
}.

(** Modelled from the spec: [models.UserToken.findOne({where: {ApplicationId,
    UserId}})] is defined by the [UserToken] model, which is not among the
    sources.  It yields a stored token bound to that application and that
    user, joined with its user and client, or nothing when there is none;
    here, the first such row. *)
Definition UserToken_findOne (db : Database) (ApplicationId UserId : Z)
  : option UserToken.t :=
  snd <$> list_find
    (fun t => UserToken.ApplicationId t = ApplicationId ∧
              UserToken.UserId t = UserId)
    (UserTokens db).

(** Modelled from the spec: [user.getCollective()] and
    [application.getCollective()] are model methods outside the sources;
    they yield the account the row's [CollectiveId] refers to. *)
Definition User_getCollective (db : Database) (u : User.t)
  : option Collective :=
  Collectives db !! User.CollectiveId u.

Definition Application_getCollective (db : Database)
    (a : ApplicationModel.t) : option Collective :=
  Collectives db !! ApplicationModel.CollectiveId a.

(** The object the [oauthAuthorization] field resolves to. *)
Record OAuthAuthorization := mkOAuthAuthorization {
  account : option Collective;
  application : ApplicationModel.t;
  expiresAt : Z;
  createdAt : Z;
  updatedAt : Z
}.

(** What an asynchronous resolver settles to. *)
Inductive Resolved (A : Type) :=
| RNull
| RUndefined
| RValue (a : A).
Arguments RNull {A}.
Arguments RUndefined {A}.
Arguments RValue {A} a.

(** A nullable string column as a JavaScript value. *)
Definition column (c : option string) : Value :=
  match c with
  | Some s => VStr s
  | None => VNull
  end.

Module Application.

Section Resolvers.
(** [idEncode] of [../identifiers], which is not among the sources. *)
Context (idEncode : Z -> string -> string) (db : Database).

Definition id (order : ApplicationModel.t) : string :=
  idEncode (ApplicationModel.id order) "order".

Definition legacyId (order : ApplicationModel.t) : Z :=
  ApplicationModel.id order.

Definition type (application : ApplicationModel.t) : string :=
  ApplicationModel.type application.

Definition name (application : ApplicationModel.t) : Value :=
  column (ApplicationModel.name application).

Definition description (application : ApplicationModel.t) : Value :=
  column (ApplicationModel.description application).

Definition apiKey (application : ApplicationModel.t) (req : Request)
  : Value :=
  match remoteUser req with
  | Some u =>
    if bool_decide (User.CollectiveId u =
                    ApplicationModel.CollectiveId application)
    then column (ApplicationModel.apiKey application)
    else VUndefined
  | None => VUndefined
  end.

Definition clientId (application : ApplicationModel.t) (req : Request)
  : Value :=
  match remoteUser req with
  | Some u =>
    if bool_decide (User.CollectiveId u =
                    ApplicationModel.CollectiveId application)
    then column (ApplicationModel.clientId application)
    else VUndefined
  | None => VUndefined
  end.

Definition clientSecret (application : ApplicationModel.t) (req : Request)
  : Value :=
  match remoteUser req with
  | Some u =>
    if bool_decide (User.CollectiveId u =
                    ApplicationModel.CollectiveId application)
    then column (ApplicationModel.clientSecret application)
    else VUndefined
  | None => VUndefined
  end.

Definition callbackUrl (application : ApplicationModel.t) (req : Request)
  : Value :=
  match remoteUser req with
  | Some u =>
    if bool_decide (User.CollectiveId u =
                    ApplicationModel.CollectiveId application)
    then column (ApplicationModel.callbackUrl application)
    else VUndefined
  | None => VUndefined
  end.

Definition account (application : ApplicationModel.t)
  : option Collective :=
  Application_getCollective db application.

Definition oauthAuthorization (application : ApplicationModel.t)
    (req : Request) : Resolved OAuthAuthorization :=
  match remoteUser req with
  | None => RNull
  | Some u =>
    match UserToken_findOne db (ApplicationModel.id application)
                            (User.id u) with
    | Some userToken =>
      RValue (mkOAuthAuthorization
                (User_getCollective db (UserToken.user userToken))
                (UserToken.client userToken)
                (UserToken.accessTokenExpiresAt userToken)
                (UserToken.createdAt userToken)
                (UserToken.updatedAt userToken))
    | None => RUndefined
    end
  end.

End Resolvers.

End Application.

(** The requester is signed in and its account is the application's
    owning account. *)
Definition is_owner (application : ApplicationModel.t) (req : Request)
  : Prop :=
  ∃ u, remoteUser req = Some u ∧
       User.CollectiveId u = ApplicationModel.CollectiveId application.

(** ** Reading a log *)

Definition is_locals (c : Call) : bool :=
  match c with
  | res_locals_oauth _ _ => true
  | _ => false
  end.

(** [next()] without an argument, and [next(e)]. *)
Definition is_plain_next (c : Call) : bool :=
  match c with
  | next None => true
  | _ => false
  end.

Definition is_error_next (c : Call) : bool :=
  match c with
  | next (Some _) => true
  | _ => false
  end.

(** How many replies a log holds, and how many calls of [next]. *)
Definition replies (log : list Call) : nat :=
  length (List.filter is_reply log).

Definition nexts (log : list Call) : nat :=
  length (List.filter is_next log).

(** [const oauth = new OAuthServer({ model: model })], the default export
    of [index.ts]; [model] is the object imported from [./model]. *)
Definition oauth (model : positive) : Completion OAuthServer :=
  OAuthServer_new (Some {[ "model" := VObj model ]}).

(** ** Concrete instances used in the examples below *)

Module Fixture.

(** Ninety days, as the comment at the use site says. *)
Definition auth : AuthLib := mkAuthLib (60 * 60 * 24 * 90) "HS256" "key-1".

Definition config : Config := mkConfig "s3cret".

Definition alice : User.t := User.mk 42 7.

Definition mallory : User.t := User.mk 43 8.

Definition model : TokenModel := mkTokenModel "opaque-abc" 5000 None alice.

(** A server built from [{model}] alone, as the module's [oauth]. *)
Definition plain_server : CustomOAuth2Server :=
  mkCustomOAuth2Server {[ "model" := VObj 2 ]}.

(** An engine whose operations all succeed: [authorize] answers with a
    redirect, [token] with the signed token as body. *)
Definition granting : Library :=
  mkLibrary
    (fun _ _ _ r => (Return (VObj 8), r))
    (fun _ _ _ r =>
       (Return (VObj 9),
        mkResponse 302 {[ "location" := "https://x/cb?code=C" ]} (body r)))
    (fun this getTokenType _ r =>
       (Return (VObj 7),
        mkResponse 200
          {[ "cache-control" := "no-store"; "pragma" := "no-cache" ]}
          (BodyJwt (valueOf (getTokenType model) 1000)))).

(** An engine whose operations all reject with [e]. *)
Definition rejecting (e : Error) : Library :=
  mkLibrary
    (fun _ _ _ r => (Throw e, r))
    (fun _ _ _ r => (Throw e, r))
    (fun _ _ _ r => (Throw e, r)).

Definition invalid_grant : Error :=
  mkError OtherErrorC "invalid_grant" "Invalid grant" (VNum 400).

Definition responding : OAuthServer :=
  mkOAuthServer false false plain_server.

Definition continuing : OAuthServer :=
  mkOAuthServer false true plain_server.

Definition delegating : OAuthServer :=
  mkOAuthServer true false plain_server.

Definition signed_in : Request := mkRequest (Some alice) ∅.

Definition app : ApplicationModel.t :=
  ApplicationModel.mk 11 "oAuth" (Some "ledger") None None
    (Some "client-11") (Some "hush") (Some "https://x/cb") 7.

Definition collective7 : Collective := mkCollective 7 "alice".

Definition alice_token : UserToken.t :=
  UserToken.mk 11 42 alice app 9000 100 200.

Definition db : Database :=
  mkDatabase [UserToken.mk 12 42 alice app 1 2 3; alice_token]
             {[ 7 := collective7 ]}.

Definition by_mallory : Request := mkRequest (Some mallory) ∅.

Definition signed_out : Request := mkRequest None ∅.

End Fixture.

(** * Properties *)

(** ** Token codec *)

Section TokenCodecFacts.
Context (auth : AuthLib) (config : Config).

Lemma getTokenType_payload this model now k :
  Jwt.payload (valueOf (getTokenType auth config this model) now) !! k =
    if decide (k = "sub") then Some (VStr (String_ (User.id (user model))))
    else if decide (k = "exp")
         then Some (VNum (now + TOKEN_EXPIRATION_SESSION auth))
    else if decide (k = "iat") then Some (VNum now)
    else if decide (k = "access_token")
         then Some (VStr (accessToken model))
    else None.
Proof.
  cbn. repeat case_decide; subst; simplify_map_eq; done.
Qed.

Lemma getTokenType_header this model now :
  Jwt.header (valueOf (getTokenType auth config this model) now) =
    {[ "kid" := VStr (KID auth) ]} ∪
    <["alg" := VStr (ALGORITHM auth)]> {["typ" := VStr "JWT"]}.
Proof. reflexivity. Qed.

(** C1: the bearer token issued for an access-token record is signed
    with the configured secret, has the opaque access-token id as its
    [access_token] claim, the decimal string of the user's id as its
    [sub] claim, and the key id in its [kid] header. *)
Theorem issue_carries_token_subject_and_kid
    (this : CustomTokenHandler) (model : TokenModel) (now : Z) :
  let t := valueOf (getTokenType auth config this model) now in
  Jwt.payload t !! "access_token" = Some (VStr (accessToken model)) ∧
  Jwt.payload t !! "sub" = Some (VStr (pretty (User.id (user model)))) ∧
  Jwt.header t !! "kid" = Some (VStr (KID auth)) ∧
  Jwt.header t !! "alg" = Some (VStr (ALGORITHM auth)) ∧
  Jwt.sig_key (Jwt.signature t) = jwtSecret config ∧
  Jwt.sig_algorithm (Jwt.signature t) = ALGORITHM auth ∧
  Jwt.verify_signature t (jwtSecret config) = true.
Proof.
  intros t. subst t. split_and!.
  - by rewrite getTokenType_payload.
  - by rewrite getTokenType_payload.
  - rewrite getTokenType_header. by simplify_map_eq.
  - rewrite getTokenType_header.
    rewrite lookup_union_r by by simplify_map_eq.
    by simplify_map_eq.
  - reflexivity.
  - reflexivity.
  - unfold Jwt.verify_signature. by rewrite bool_decide_eq_true.
Qed.

End TokenCodecFacts.

(** The subject is the decimal rendering of the id. *)
Example subject_of_alice :
  Jwt.payload (valueOf (getTokenType Fixture.auth Fixture.config
                          (CustomTokenHandler_new ∅) Fixture.model) 1000)
    !! "sub" = Some (VStr "42").
Proof. vm_compute. reflexivity. Qed.

(** A token does not verify under another key. *)
Example wrong_key_rejected :
  Jwt.verify_signature
    (valueOf (getTokenType Fixture.auth Fixture.config
                (CustomTokenHandler_new ∅) Fixture.model) 1000)
    "other" = false.
Proof. vm_compute. reflexivity. Qed.

(** ** Options of a token exchange *)

Lemma assign_lookup object sources k :
  assign object sources !! k =
    foldl (fun acc src =>
             match src with Some s => s !! k ∪ acc | None => acc end)
          (object !! k) sources.
Proof.
  unfold assign. revert object.
  induction sources as [|[s|] sources IH]; intros object; simpl; [done| |].
  - rewrite IH. by rewrite lookup_union.
  - by rewrite IH.
Qed.

Section TokenOptionsFacts.
Context (auth : AuthLib) (config : Config).

Lemma token_options_lookup this opts k :
  token_options auth this opts !! k =
    (opts ≫= fun o => o !! k) ∪
    (options this !! k ∪ token_defaults auth !! k).
Proof.
  unfold token_options. rewrite assign_lookup. simpl.
  destruct opts as [o|]; simpl; [done|].
  by destruct (options this !! k), (token_defaults auth !! k).
Qed.

Lemma token_defaults_lifetimes :
  token_defaults auth !! "accessTokenLifetime" =
    Some (VNum (TOKEN_EXPIRATION_SESSION auth)) ∧
  token_defaults auth !! "refreshTokenLifetime" = Some (VNum 31536000).
Proof. unfold token_defaults. split; by simplify_map_eq. Qed.

(** C5, as the code has it: in the options a token exchange runs with, a
    property given per call wins over the same property of the server's
    construction options, which wins over the built-in default; the
    defaults of the two lifetimes are [TOKEN_EXPIRATION_SESSION] and 365
    days.  The signed token's [exp] is its [iat] plus
    [TOKEN_EXPIRATION_SESSION], whatever these options are. *)
Theorem token_lifetime_options_precedence
    (this : CustomOAuth2Server) (opts : option (gmap string Value))
    (k : string) (model : TokenModel) (now : Z) :
  let effective := token_options auth this opts in
  let t := valueOf (getTokenType auth config
                      (CustomTokenHandler_new effective) model) now in
  effective !! k =
    (opts ≫= fun o => o !! k) ∪
    (options this !! k ∪ token_defaults auth !! k) ∧
  token_defaults auth !! "accessTokenLifetime" =
    Some (VNum (TOKEN_EXPIRATION_SESSION auth)) ∧
  token_defaults auth !! "refreshTokenLifetime" =
    Some (VNum (60 * 60 * 24 * 365)) ∧
  Jwt.payload t !! "iat" = Some (VNum now) ∧
  Jwt.payload t !! "exp" = Some (VNum (now + TOKEN_EXPIRATION_SESSION auth)).
Proof.
  intros effective t. subst effective t. split_and!.
  - apply token_options_lookup.
  - apply token_defaults_lifetimes.
  - apply token_defaults_lifetimes.
  - by rewrite getTokenType_payload.
  - by rewrite getTokenType_payload.
Qed.

End TokenOptionsFacts.

(** Per-call options win over construction options and defaults. *)
Example call_option_wins :
  token_options Fixture.auth
    (mkCustomOAuth2Server {[ "accessTokenLifetime" := VNum 600 ]})
    (Some {[ "accessTokenLifetime" := VNum 60 ]})
    !! "accessTokenLifetime" = Some (VNum 60).
Proof. vm_compute. reflexivity. Qed.

Example construction_option_wins :
  token_options Fixture.auth
    (mkCustomOAuth2Server {[ "accessTokenLifetime" := VNum 600 ]})
    None
    !! "accessTokenLifetime" = Some (VNum 600).
Proof. vm_compute. reflexivity. Qed.

Example default_lifetime_applies :
  token_options Fixture.auth Fixture.plain_server None
    !! "accessTokenLifetime" = Some (VNum 7776000).
Proof. vm_compute. reflexivity. Qed.

(** C5, as stated, fails: with a per-call access-token lifetime of one
    hour the effective lifetime is 3600 s, yet the token signed by the
    handler built from those very options expires 7776000 s after it was
    issued. *)
Lemma token_expiry_ignores_effective_lifetime :
  let effective :=
    token_options Fixture.auth Fixture.plain_server
      (Some {[ "accessTokenLifetime" := VNum 3600 ]}) in
  let t := valueOf (getTokenType Fixture.auth Fixture.config
                      (CustomTokenHandler_new effective) Fixture.model)
                   1000 in
  effective !! "accessTokenLifetime" = Some (VNum 3600) ∧
  Jwt.payload t !! "iat" = Some (VNum 1000) ∧
  Jwt.payload t !! "exp" = Some (VNum (1000 + 7776000)) ∧
  Jwt.payload t !! "exp" ≠ Some (VNum (1000 + 3600)).
Proof.
  vm_compute. split_and!; [reflexivity..|]. intros [=].
Qed.

(** ** Replies *)

Lemma handleResponse_returns w : (handleResponse w).1 = Return tt.
Proof.
  unfold handleResponse, get_response, set_response, call, mbind, M_bind.
  simpl. by destruct (status (response w) =? 302).
Qed.

(** [handleResponse] only appends to the log. *)
Lemma handleResponse_log r l :
  calls (handleResponse (mkWorld r l)).2 =
    l ++ calls (handleResponse (mkWorld r [])).2.
Proof.
  unfold handleResponse, get_response, set_response, call, mbind, M_bind.
  simpl. destruct (status r =? 302); simpl; by rewrite <- !app_assoc.
Qed.

Lemma handleResponse_writes_reply r :
  passes_onward (calls (handleResponse (mkWorld r [])).2) = false ∧
  writes_reply (calls (handleResponse (mkWorld r [])).2) = true.
Proof.
  unfold handleResponse, get_response, set_response, call, mbind, M_bind.
  simpl. by destruct (status r =? 302).
Qed.

Lemma useErrorHandler_set o s :
  OAuthServer_new (Some o) = Return s ->
  useErrorHandler s = truthy (prop o "useErrorHandler").
Proof.
  unfold OAuthServer_new. simpl.
  destruct (truthy (prop o "model")); simpl; [|done].
  intros [= <-]. simpl. by destruct (truthy _).
Qed.

Lemma continueMiddleware_set o s :
  OAuthServer_new (Some o) = Return s ->
  continueMiddleware s = truthy (prop o "continueMiddleware").
Proof.
  unfold OAuthServer_new. simpl.
  destruct (truthy (prop o "model")); simpl; [|done].
  intros [= <-]. simpl.
  unfold prop. rewrite lookup_delete_ne by done. by destruct (truthy _).
Qed.

(** C6: for a protocol response with status 302, [handleResponse] takes
    the [location] header out of the header set, writes the remaining
    headers unchanged and redirects to that location, with no status or
    body call; for any other status it writes the headers, the status and
    the body as they are. *)
Theorem handleResponse_redirect_or_plain (w : World) :
  let r := response w in
  let w' := (handleResponse w).2 in
  (status r = 302 ->
     calls w' = calls w ++ [res_set (delete "location" (headers r));
                            res_redirect (headers r !! "location")] ∧
     delete "location" (headers r) !! "location" = None ∧
     (∀ k, k ≠ "location" ->
           delete "location" (headers r) !! k = headers r !! k) ∧
     headers (response w') = delete "location" (headers r)) ∧
  (status r ≠ 302 ->
     calls w' = calls w ++ [res_set (headers r);
                            res_status (VNum (status r));
                            res_send (Some (body r))] ∧
     response w' = r).
Proof.
  intros r w'. subst r w'.
  unfold handleResponse, get_response, set_response, call, mbind, M_bind.
  simpl. split; intros Hs.
  - rewrite Hs. simpl. split_and!.
    + by rewrite <- !app_assoc.
    + apply lookup_delete_eq.
    + intros k Hk. by apply lookup_delete_ne.
    + done.
  - apply Z.eqb_neq in Hs. rewrite Hs. simpl. split.
    + by rewrite <- !app_assoc.
    + done.
Qed.

Lemma handleResponse_redirect_or_plain_witness :
  calls (handleResponse
           (mkWorld (mkResponse 302
                       {[ "location" := "https://x/cb?code=C";
                          "vary" := "Origin" ]}
                       (BodyObject ∅)) [])).2 =
    [res_set {[ "vary" := "Origin" ]};
     res_redirect (Some "https://x/cb?code=C")] ∧
  calls (handleResponse
           (mkWorld (mkResponse 200 {[ "pragma" := "no-cache" ]}
                       (BodyObject ∅)) [])).2 =
    [res_set {[ "pragma" := "no-cache" ]};
     res_status (VNum 200);
     res_send (Some (BodyObject ∅))].
Proof.
  split.
  - pose proof (proj1 (handleResponse_redirect_or_plain
      (mkWorld (mkResponse 302
                  {[ "location" := "https://x/cb?code=C";
                     "vary" := "Origin" ]}
                  (BodyObject ∅)) [])) eq_refl) as (H & _).
    vm_compute in H. vm_compute. exact H.
  - pose proof (proj2 (handleResponse_redirect_or_plain
      (mkWorld (mkResponse 200 {[ "pragma" := "no-cache" ]}
                  (BodyObject ∅)) [])) ltac:(simpl; lia)) as (H & _).
    exact H.
Defined.

(** ** Middlewares *)

Section MiddlewareFacts.
Context (auth : AuthLib) (config : Config) (lib : Library).

Ltac unfold_chain :=
  unfold middleware, engine_of, authenticate, authorize, token, catch, tap,
    then_, run_engine, call, mbind, M_bind, mret, M_ret in *;
  simpl in *.

Lemma catch_handleResponse (h : Error -> M unit) w :
  (let (c, w') := handleResponse w in
   match c with
   | Throw e => h e w'
   | Return a => (Return a, w')
   end) = handleResponse w.
Proof.
  pose proof (handleResponse_returns w) as H.
  by destruct (handleResponse w) as [[?|[]] ?].
Qed.

(** A rejected engine operation skips the rest of the chain and reaches
    [handleError] with nothing written yet. *)
Lemma middleware_failure m this opts req e r' :
  engine_of auth config lib m this opts req new_Response = (Throw e, r') ->
  middleware auth config lib m this opts req (mkWorld new_Response []) =
    handleError this e (passes_response m) (mkWorld r' []).
Proof.
  intros He. destruct m; unfold_chain; by rewrite He.
Qed.

(** A resolved engine operation stores its result, calls [next] as the
    middleware prescribes, and for [authorize] and [token] goes on to
    [handleResponse]. *)
Lemma middleware_success m this opts req v r' :
  engine_of auth config lib m this opts req new_Response = (Return v, r') ->
  middleware auth config lib m this opts req (mkWorld new_Response []) =
    match m with
    | Authenticate =>
        (Return tt, mkWorld r' [res_locals_oauth "token" v; next None])
    | _ =>
        handleResponse
          (mkWorld r' (res_locals_oauth (locals_key m) v ::
                       if continueMiddleware this then [next None] else []))
    end.
Proof.
  intros He. destruct m; unfold_chain; rewrite He; simpl.
  - done.
  - destruct (continueMiddleware this); simpl; by rewrite catch_handleResponse.
  - destruct (continueMiddleware this); simpl; by rewrite catch_handleResponse.
Qed.

Lemma handleError_delegates this e b w :
  useErrorHandler this = true ->
  handleError this e b w =
    (Return tt, mkWorld (response w) (calls w ++ [next (Some e)])).
Proof. intros H. unfold handleError. by rewrite H. Qed.

Lemma handleError_replies this e b w :
  useErrorHandler this = false ->
  handleError this e b w =
    (Return tt,
     mkWorld (response w)
       (calls w ++
        (if b then [res_set (headers (response w))] else []) ++
        res_status (e_code e) ::
        if instanceof_UnauthorizedRequestError e then
          [res_set_field "WWW-Authenticate"
             ("Bearer realm=" +:+ dquote +:+ "service" +:+ dquote);
           res_send None]
        else
          [res_send (Some (BodyObject
             {[ "error" := VStr (e_name e);
                "error_description" := VStr (e_message e) ]}))])).
Proof.
  intros H. unfold handleError. rewrite H.
  unfold get_response, call, mbind, M_bind, mret, M_ret.
  destruct b, (instanceof_UnauthorizedRequestError e); simpl;
    by rewrite <- ?app_assoc.
Qed.

(** C2: when the external error handler is not enabled, the error
    boundary, reached with a failure [e] after any calls whatever, writes
    the status [e.code] and then the JSON body [{error: e.name,
    error_description: e.message}]; when [e] is an
    [UnauthorizedRequestError] it writes the status, sets
    [WWW-Authenticate] to [Bearer realm="service"] and sends no body.
    It is given the protocol response by [authorize] and [token], and then
    first writes that response's headers.  So a middleware whose engine
    operation rejects with [e] makes exactly these calls. *)
Theorem error_boundary_reply m this opts req e r' :
  useErrorHandler this = false ->
  engine_of auth config lib m this opts req new_Response = (Throw e, r') ->
  let reply :=
    res_status (e_code e) ::
    if bool_decide (e_class e = UnauthorizedRequestErrorC) then
      [res_set_field "WWW-Authenticate"
         ("Bearer realm=" +:+ dquote +:+ "service" +:+ dquote);
       res_send None]
    else
      [res_send (Some (BodyObject
         {[ "error" := VStr (e_name e);
            "error_description" := VStr (e_message e) ]}))] in
  (∀ w, handleError this e false w =
          (Return tt, mkWorld (response w) (calls w ++ reply))) ∧
  (∀ w, handleError this e true w =
          (Return tt,
           mkWorld (response w)
                   (calls w ++ res_set (headers (response w)) :: reply))) ∧
  run (middleware auth config lib m this opts req) =
    (if passes_response m then [res_set (headers r')] else []) ++ reply.
Proof.
  intros Hu He reply. subst reply. split_and!.
  - intros w. by rewrite (handleError_replies _ _ _ _ Hu).
  - intros w. by rewrite (handleError_replies _ _ _ _ Hu).
  - unfold run. rewrite (middleware_failure _ _ _ _ _ _ He).
    by rewrite (handleError_replies _ _ _ _ Hu).
Qed.

(** C9: when [useErrorHandler] is enabled, the error boundary, reached
    with a failure [e], calls [next(e)] and nothing else, so a middleware
    whose engine operation rejects with [e] makes that one call and writes
    no header, status or body.  When it is disabled, [next] is not called
    and the run ends by sending a reply.  The flag is the truthiness of
    the [useErrorHandler] construction option. *)
Theorem error_handling_delegation m this opts req e r' :
  engine_of auth config lib m this opts req new_Response = (Throw e, r') ->
  let log := run (middleware auth config lib m this opts req) in
  (useErrorHandler this = true ->
     (∀ b w, handleError this e b w =
               (Return tt,
                mkWorld (response w) (calls w ++ [next (Some e)]))) ∧
     log = [next (Some e)] ∧ existsb is_res_call log = false) ∧
  (useErrorHandler this = false ->
     passes_onward log = false ∧ ∃ b, last log = Some (res_send b)) ∧
  (∀ o s, OAuthServer_new (Some o) = Return s ->
          useErrorHandler s = truthy (prop o "useErrorHandler")).
Proof.
  intros He log. subst log. unfold run.
  rewrite (middleware_failure _ _ _ _ _ _ He). split_and!.
  - intros Hu. split.
    + intros b w. apply (handleError_delegates _ _ _ _ Hu).
    + by rewrite (handleError_delegates _ _ _ _ Hu).
  - intros Hu. rewrite (handleError_replies _ _ _ _ Hu). simpl.
    destruct (passes_response m), (instanceof_UnauthorizedRequestError e);
      simpl; eauto.
  - apply useErrorHandler_set.
Qed.

(** C7, as the code has it: when the engine operation resolves,
    [authenticate] stores the result and calls [next()] whatever
    [continueMiddleware] is, and writes no reply; [authorize] and [token]
    store the result, call [next()] exactly when [continueMiddleware] is
    set, and then write the reply through [handleResponse] in either
    case.  The flag is the truthiness of the [continueMiddleware]
    construction option. *)
Theorem continueMiddleware_effect m this opts req v r' :
  engine_of auth config lib m this opts req new_Response = (Return v, r') ->
  let log := run (middleware auth config lib m this opts req) in
  log = res_locals_oauth (locals_key m) v ::
        (match m with
         | Authenticate => [next None]
         | _ => if continueMiddleware this then [next None] else []
         end) ++
        (match m with
         | Authenticate => []
         | _ => calls (handleResponse (mkWorld r' [])).2
         end) ∧
  passes_onward log =
    match m with
    | Authenticate => true
    | _ => continueMiddleware this
    end ∧
  writes_reply log =
    match m with
    | Authenticate => false
    | _ => true
    end ∧
  (∀ o s, OAuthServer_new (Some o) = Return s ->
          continueMiddleware s = truthy (prop o "continueMiddleware")).
Proof.
  intros He log. subst log. unfold run.
  rewrite (middleware_success _ _ _ _ _ _ He).
  destruct m; simpl.
  - split_and!; [done..|apply continueMiddleware_set].
  - rewrite handleResponse_log. simpl.
    pose proof (handleResponse_writes_reply r') as [Hn Hw].
    split_and!; [done| | |apply continueMiddleware_set].
    + unfold passes_onward. simpl. rewrite existsb_app.
      fold (passes_onward (calls (handleResponse (mkWorld r' [])).2)).
      rewrite Hn. by destruct (continueMiddleware this).
    + unfold writes_reply. simpl. rewrite existsb_app.
      fold (writes_reply (calls (handleResponse (mkWorld r' [])).2)).
      rewrite Hw. by destruct (continueMiddleware this).
  - rewrite handleResponse_log. simpl.
    pose proof (handleResponse_writes_reply r') as [Hn Hw].
    split_and!; [done| | |apply continueMiddleware_set].
    + unfold passes_onward. simpl. rewrite existsb_app.
      fold (passes_onward (calls (handleResponse (mkWorld r' [])).2)).
      rewrite Hn. by destruct (continueMiddleware this).
    + unfold writes_reply. simpl. rewrite existsb_app.
      fold (writes_reply (calls (handleResponse (mkWorld r' [])).2)).
      rewrite Hw. by destruct (continueMiddleware this).
Qed.

End MiddlewareFacts.

Lemma error_boundary_reply_witness :
  run (middleware Fixture.auth Fixture.config
         (Fixture.rejecting Fixture.invalid_grant)
         Token Fixture.responding None Fixture.signed_in) =
    [res_set ∅;
     res_status (VNum 400);
     res_send (Some (BodyObject
       {[ "error" := VStr "invalid_grant";
          "error_description" := VStr "Invalid grant" ]}))] ∧
  run (middleware Fixture.auth Fixture.config
         (Fixture.rejecting (UnauthorizedRequestError "You must be signed in"))
         Authenticate Fixture.responding None Fixture.signed_out) =
    [res_status (VNum 401);
     res_set_field "WWW-Authenticate"
       ("Bearer realm=" +:+ dquote +:+ "service" +:+ dquote);
     res_send None].
Proof.
  split.
  - exact (proj2 (proj2 (error_boundary_reply Fixture.auth Fixture.config
             (Fixture.rejecting Fixture.invalid_grant)
             Token Fixture.responding None Fixture.signed_in
             Fixture.invalid_grant new_Response eq_refl eq_refl))).
  - exact (proj2 (proj2 (error_boundary_reply Fixture.auth Fixture.config
             (Fixture.rejecting
                (UnauthorizedRequestError "You must be signed in"))
             Authenticate Fixture.responding None Fixture.signed_out
             (UnauthorizedRequestError "You must be signed in")
             new_Response eq_refl eq_refl))).
Defined.

Lemma error_handling_delegation_witness :
  run (middleware Fixture.auth Fixture.config
         (Fixture.rejecting Fixture.invalid_grant)
         Authorize Fixture.delegating None Fixture.signed_in) =
    [next (Some Fixture.invalid_grant)] ∧
  passes_onward
    (run (middleware Fixture.auth Fixture.config
            (Fixture.rejecting Fixture.invalid_grant)
            Authorize Fixture.responding None Fixture.signed_in)) = false ∧
  useErrorHandler Fixture.delegating =
    truthy (prop {[ "model" := VObj 2; "useErrorHandler" := VNum 1 ]}
                 "useErrorHandler").
Proof.
  split_and!.
  - exact (proj1 (proj2 (proj1 (error_handling_delegation
             Fixture.auth Fixture.config
             (Fixture.rejecting Fixture.invalid_grant)
             Authorize Fixture.delegating None Fixture.signed_in
             Fixture.invalid_grant new_Response eq_refl) eq_refl))).
  - exact (proj1 (proj1 (proj2 (error_handling_delegation
             Fixture.auth Fixture.config
             (Fixture.rejecting Fixture.invalid_grant)
             Authorize Fixture.responding None Fixture.signed_in
             Fixture.invalid_grant new_Response eq_refl)) eq_refl)).
  - exact (proj2 (proj2 (error_handling_delegation
             Fixture.auth Fixture.config
             (Fixture.rejecting Fixture.invalid_grant)
             Authorize Fixture.responding None Fixture.signed_in
             Fixture.invalid_grant new_Response eq_refl))
             {[ "model" := VObj 2; "useErrorHandler" := VNum 1 ]}
             Fixture.delegating eq_refl).
Defined.

Lemma continueMiddleware_effect_witness :
  run (middleware Fixture.auth Fixture.config Fixture.granting
         Authorize Fixture.responding None Fixture.signed_in) =
    [res_locals_oauth "code" (VObj 9);
     res_set ∅;
     res_redirect (Some "https://x/cb?code=C")] ∧
  run (middleware Fixture.auth Fixture.config Fixture.granting
         Authorize Fixture.continuing None Fixture.signed_in) =
    [res_locals_oauth "code" (VObj 9);
     next None;
     res_set ∅;
     res_redirect (Some "https://x/cb?code=C")] ∧
  continueMiddleware Fixture.continuing =
    truthy (prop {[ "model" := VObj 2; "continueMiddleware" := VBool true ]}
                 "continueMiddleware").
Proof.
  split_and!.
  - exact (proj1 (continueMiddleware_effect
             Fixture.auth Fixture.config Fixture.granting
             Authorize Fixture.responding None Fixture.signed_in
             (VObj 9)
             (mkResponse 302 {[ "location" := "https://x/cb?code=C" ]}
                         (BodyObject ∅))
             eq_refl)).
  - exact (proj1 (continueMiddleware_effect
             Fixture.auth Fixture.config Fixture.granting
             Authorize Fixture.continuing None Fixture.signed_in
             (VObj 9)
             (mkResponse 302 {[ "location" := "https://x/cb?code=C" ]}
                         (BodyObject ∅))
             eq_refl)).
  - exact (proj2 (proj2 (proj2 (continueMiddleware_effect
             Fixture.auth Fixture.config Fixture.granting
             Authorize Fixture.continuing None Fixture.signed_in
             (VObj 9)
             (mkResponse 302 {[ "location" := "https://x/cb?code=C" ]}
                         (BodyObject ∅))
             eq_refl)))
             {[ "model" := VObj 2; "continueMiddleware" := VBool true ]}
             Fixture.continuing eq_refl).
Defined.

(** C7, as stated, fails.  With [continueMiddleware] set, [authorize]
    passes control on and still writes the reply itself; with it unset,
    [authenticate] passes control on all the same and writes nothing. *)
Lemma continueMiddleware_not_a_choice_of_writer :
  (continueMiddleware Fixture.continuing = true ∧
   let log := run (middleware Fixture.auth Fixture.config Fixture.granting
                     Authorize Fixture.continuing None Fixture.signed_in) in
   passes_onward log = true ∧ writes_reply log = true) ∧
  (continueMiddleware Fixture.responding = false ∧
   let log := run (middleware Fixture.auth Fixture.config Fixture.granting
                     Authenticate Fixture.responding None Fixture.signed_in) in
   passes_onward log = true ∧ writes_reply log = false).
Proof. vm_compute. split_and!; reflexivity. Qed.

(** The token endpoint replies with the signed token as body. *)
Example token_reply_is_signed_token :
  run (middleware Fixture.auth Fixture.config Fixture.granting
         Token Fixture.responding None Fixture.signed_in) =
    [res_locals_oauth "token" (VObj 7);
     res_set {[ "cache-control" := "no-store"; "pragma" := "no-cache" ]};
     res_status (VNum 200);
     res_send (Some (BodyJwt
       (valueOf (getTokenType Fixture.auth Fixture.config
                   (CustomTokenHandler_new ∅) Fixture.model) 1000)))].
Proof. vm_compute. reflexivity. Qed.

(** ** Authorizing needs a signed-in user *)

(** C4: for a request without [remoteUser] the authenticate handler throws
    [UnauthorizedRequestError], and the engine's authorize operation run
    with this handler fails with that error and leaves the store as it
    was, so no code is created; for a request with a [remoteUser] the
    handler returns that user. *)
Theorem authorize_requires_principal (req : Request) :
  (remoteUser req = None ->
     authorizeAuthenticateHandler_handle req =
       Throw (UnauthorizedRequestError "You must be signed in") ∧
     e_class (UnauthorizedRequestError "You must be signed in") =
       UnauthorizedRequestErrorC ∧
     ∀ fresh now store,
       GrantEngine.authorize authorizeAuthenticateHandler_handle
                             fresh now req store =
         (Throw (UnauthorizedRequestError "You must be signed in"), store)) ∧
  (∀ u, remoteUser req = Some u ->
     authorizeAuthenticateHandler_handle req = Return u).
Proof.
  unfold GrantEngine.authorize, authorizeAuthenticateHandler_handle.
  split.
  - intros ->. by split_and!.
  - by intros u ->.
Qed.

Lemma authorize_requires_principal_witness :
  GrantEngine.authorize authorizeAuthenticateHandler_handle "C" 1000
    (mkRequest None {[ "client_id" := VStr "abc";
                       "redirect_uri" := VStr "https://x/cb" ]})
    (GrantEngine.mkStore
       [GrantEngine.mkClient "abc" ["https://x/cb"]] []) =
    (Throw (UnauthorizedRequestError "You must be signed in"),
     GrantEngine.mkStore [GrantEngine.mkClient "abc" ["https://x/cb"]] []) ∧
  authorizeAuthenticateHandler_handle Fixture.signed_in =
    Return Fixture.alice.
Proof.
  split.
  - exact (proj2 (proj2 (proj1 (authorize_requires_principal
             (mkRequest None {[ "client_id" := VStr "abc";
                                "redirect_uri" := VStr "https://x/cb" ]}))
             eq_refl)) "C" 1000 _).
  - exact (proj2 (authorize_requires_principal Fixture.signed_in)
             Fixture.alice eq_refl).
Defined.

(** The same request from a signed-in user creates a code. *)
Example authorize_signed_in_persists_code :
  let request := mkRequest (Some Fixture.alice)
                   {[ "client_id" := VStr "abc";
                      "redirect_uri" := VStr "https://x/cb" ]} in
  let store := GrantEngine.mkStore
                 [GrantEngine.mkClient "abc" ["https://x/cb"]] [] in
  let ac := GrantEngine.mkAuthorizationCode
              "C" "abc" Fixture.alice "https://x/cb" None 1300 in
  GrantEngine.authorize authorizeAuthenticateHandler_handle "C" 1000
                        request store =
    (Return ac, GrantEngine.mkStore (GrantEngine.clients store) [ac]).
Proof. vm_compute. reflexivity. Qed.

(** ** GraphQL [Application] fields *)

Lemma column_defined c : column c ≠ VUndefined.
Proof. by destruct c. Qed.

Section ApplicationFacts.
Context (idEncode : Z -> string -> string) (db : Database).

Lemma gate_open application req (stored : option string) :
  is_owner application req ->
  match remoteUser req with
  | Some u =>
    if bool_decide (User.CollectiveId u =
                    ApplicationModel.CollectiveId application)
    then column stored else VUndefined
  | None => VUndefined
  end = column stored.
Proof.
  intros (u & -> & Hu). by rewrite bool_decide_eq_true_2.
Qed.

Lemma gate_closed application req (stored : option string) :
  ¬ is_owner application req ->
  match remoteUser req with
  | Some u =>
    if bool_decide (User.CollectiveId u =
                    ApplicationModel.CollectiveId application)
    then column stored else VUndefined
  | None => VUndefined
  end = VUndefined.
Proof.
  intros Hn. destruct (remoteUser req) as [u|] eqn:Hr; [|done].
  case_bool_decide; [|done]. destruct Hn. by exists u.
Qed.

Lemma is_owner_dec application req :
  is_owner application req ∨ ¬ is_owner application req.
Proof.
  unfold is_owner. destruct (remoteUser req) as [u|].
  - destruct (decide (User.CollectiveId u =
                      ApplicationModel.CollectiveId application)).
    + left. eauto.
    + right. intros (? & [= <-] & ?). done.
  - right. by intros (? & [=] & _).
Qed.

(** C3: each of [apiKey], [clientId], [clientSecret] and [callbackUrl]
    resolves to the stored column exactly when the requester is signed in
    and its account is the application's owning account, and to
    [undefined] otherwise. *)
Theorem owner_gated_fields (application : ApplicationModel.t)
    (req : Request) :
  (is_owner application req ->
     Application.apiKey application req =
       column (ApplicationModel.apiKey application) ∧
     Application.clientId application req =
       column (ApplicationModel.clientId application) ∧
     Application.clientSecret application req =
       column (ApplicationModel.clientSecret application) ∧
     Application.callbackUrl application req =
       column (ApplicationModel.callbackUrl application)) ∧
  (¬ is_owner application req ->
     Application.apiKey application req = VUndefined ∧
     Application.clientId application req = VUndefined ∧
     Application.clientSecret application req = VUndefined ∧
     Application.callbackUrl application req = VUndefined) ∧
  (Application.apiKey application req =
     column (ApplicationModel.apiKey application) <->
   is_owner application req) ∧
  (Application.clientId application req =
     column (ApplicationModel.clientId application) <->
   is_owner application req) ∧
  (Application.clientSecret application req =
     column (ApplicationModel.clientSecret application) <->
   is_owner application req) ∧
  (Application.callbackUrl application req =
     column (ApplicationModel.callbackUrl application) <->
   is_owner application req).
Proof.
  unfold Application.apiKey, Application.clientId,
    Application.clientSecret, Application.callbackUrl.
  split_and!.
  - intros Ho. by rewrite !(gate_open _ _ _ Ho).
  - intros Hn. by rewrite !(gate_closed _ _ _ Hn).
  - split; [|apply gate_open]. intros Heq.
    destruct (is_owner_dec application req) as [|Hn]; [done|].
    rewrite (gate_closed _ _ _ Hn) in Heq.
    by destruct (column_defined (ApplicationModel.apiKey application)).
  - split; [|apply gate_open]. intros Heq.
    destruct (is_owner_dec application req) as [|Hn]; [done|].
    rewrite (gate_closed _ _ _ Hn) in Heq.
    by destruct (column_defined (ApplicationModel.clientId application)).
  - split; [|apply gate_open]. intros Heq.
    destruct (is_owner_dec application req) as [|Hn]; [done|].
    rewrite (gate_closed _ _ _ Hn) in Heq.
    by destruct (column_defined (ApplicationModel.clientSecret application)).
  - split; [|apply gate_open]. intros Heq.
    destruct (is_owner_dec application req) as [|Hn]; [done|].
    rewrite (gate_closed _ _ _ Hn) in Heq.
    by destruct (column_defined (ApplicationModel.callbackUrl application)).
Qed.

End ApplicationFacts.

Lemma owner_gated_fields_witness :
  (Application.clientSecret Fixture.app Fixture.signed_in = VStr "hush" ∧
   Application.callbackUrl Fixture.app Fixture.signed_in =
     VStr "https://x/cb" ∧
   Application.apiKey Fixture.app Fixture.signed_in = VNull) ∧
  (Application.clientSecret Fixture.app Fixture.by_mallory = VUndefined ∧
   Application.callbackUrl Fixture.app Fixture.signed_out = VUndefined).
Proof.
  assert (Ho : is_owner Fixture.app Fixture.signed_in)
    by (exists Fixture.alice; split; reflexivity).
  assert (Hm : ¬ is_owner Fixture.app Fixture.by_mallory)
    by (intros (u & Hu & Hc); injection Hu as <-; vm_compute in Hc;
        discriminate Hc).
  assert (Hn : ¬ is_owner Fixture.app Fixture.signed_out)
    by (intros (u & Hu & _); discriminate Hu).
  split.
  - destruct (proj1 (owner_gated_fields Fixture.app Fixture.signed_in) Ho)
      as (Hk & _ & Hs & Hc).
    split_and!; [exact Hs | exact Hc | exact Hk].
  - split.
    + exact (proj1 (proj2 (proj2
        (proj1 (proj2 (owner_gated_fields Fixture.app Fixture.by_mallory))
           Hm)))).
    + exact (proj2 (proj2 (proj2
        (proj1 (proj2 (owner_gated_fields Fixture.app Fixture.signed_out))
           Hn)))).
Defined.

(** ** The [oauthAuthorization] field *)

Section SessionFacts.
Context (db : Database).

Lemma UserToken_findOne_Some aid uid t :
  UserToken_findOne db aid uid = Some t ->
  t ∈ UserTokens db ∧
  UserToken.ApplicationId t = aid ∧ UserToken.UserId t = uid.
Proof.
  unfold UserToken_findOne. intros H.
  apply fmap_Some in H as ([i t'] & Hf & ->). simpl.
  apply list_find_Some in Hf as (Hl & [Ha Hu] & _).
  split; [by eapply list_elem_of_lookup_2|done].
Qed.

Lemma UserToken_findOne_None aid uid :
  UserToken_findOne db aid uid = None <->
  ¬ ∃ t, t ∈ UserTokens db ∧
         UserToken.ApplicationId t = aid ∧ UserToken.UserId t = uid.
Proof.
  unfold UserToken_findOne. rewrite fmap_None, list_find_None, Forall_forall.
  split.
  - intros H (t & Ht & Ha & Hu). by apply (H t Ht).
  - intros H t Ht [Ha Hu]. apply H. eauto.
Qed.

(** C8: for a signed-in requester the field looks up a stored token whose
    [ApplicationId] is the application's id and whose [UserId] is the
    requester's id.  When there is one, it resolves to the account of such
    a token's user, the token's client, and the token's
    [accessTokenExpiresAt], [createdAt] and [updatedAt]; when there is
    none, it resolves to nothing. *)
Theorem oauthAuthorization_session (application : ApplicationModel.t)
    (req : Request) (u : User.t) :
  remoteUser req = Some u ->
  let bound t :=
    t ∈ UserTokens db ∧
    UserToken.ApplicationId t = ApplicationModel.id application ∧
    UserToken.UserId t = User.id u in
  ((∃ t, bound t) ->
     ∃ t, bound t ∧
       Application.oauthAuthorization db application req =
         RValue (mkOAuthAuthorization
                   (Collectives db !! User.CollectiveId (UserToken.user t))
                   (UserToken.client t)
                   (UserToken.accessTokenExpiresAt t)
                   (UserToken.createdAt t)
                   (UserToken.updatedAt t))) ∧
  ((¬ ∃ t, bound t) ->
     Application.oauthAuthorization db application req = RUndefined).
Proof.
  intros Hr bound. unfold Application.oauthAuthorization. rewrite Hr.
  destruct (UserToken_findOne db (ApplicationModel.id application) (User.id u))
    as [t|] eqn:Hf.
  - apply UserToken_findOne_Some in Hf. split.
    + intros _. by exists t.
    + intros Hn. destruct Hn. by exists t.
  - apply UserToken_findOne_None in Hf. split; [|done].
    intros He. by destruct Hf.
Qed.

End SessionFacts.

Lemma oauthAuthorization_session_witness :
  (∃ t, (t ∈ UserTokens Fixture.db ∧
         UserToken.ApplicationId t = 11 ∧ UserToken.UserId t = 42) ∧
        Application.oauthAuthorization Fixture.db Fixture.app
                                       Fixture.signed_in =
          RValue (mkOAuthAuthorization
                    (Collectives Fixture.db !!
                       User.CollectiveId (UserToken.user t))
                    (UserToken.client t)
                    (UserToken.accessTokenExpiresAt t)
                    (UserToken.createdAt t)
                    (UserToken.updatedAt t))) ∧
  Application.oauthAuthorization (mkDatabase [] ∅) Fixture.app
                                 Fixture.signed_in = RUndefined.
Proof.
  split.
  - apply (proj1 (oauthAuthorization_session Fixture.db Fixture.app
                    Fixture.signed_in Fixture.alice eq_refl)).
    exists Fixture.alice_token. split_and!; [|reflexivity..].
    apply list_elem_of_further, list_elem_of_here.
  - apply (proj2 (oauthAuthorization_session (mkDatabase [] ∅) Fixture.app
                    Fixture.signed_in Fixture.alice eq_refl)).
    intros (t & Ht & _). simpl in Ht. by apply not_elem_of_nil in Ht.
Defined.

(** The session of the fixture: the second stored token is the one bound
    to the application and the requester. *)
Example oauthAuthorization_of_alice :
  Application.oauthAuthorization Fixture.db Fixture.app Fixture.signed_in =
    RValue (mkOAuthAuthorization (Some Fixture.collective7) Fixture.app
                                 9000 100 200).
Proof. vm_compute. reflexivity. Qed.

Example oauthAuthorization_signed_out :
  Application.oauthAuthorization Fixture.db Fixture.app Fixture.signed_out =
    RNull.
Proof. reflexivity. Qed.

(** ** Identifiers *)

(** C10: [id] resolves to [idEncode] of the numeric id under the
    ['order'] type, [legacyId] to the numeric id itself, so [id] is the
    ['order'] encoding of [legacyId]. *)
Theorem application_id_is_order_encoding
    (idEncode : Z -> string -> string) (order : ApplicationModel.t) :
  Application.id idEncode order =
    idEncode (ApplicationModel.id order) "order" ∧
  Application.legacyId order = ApplicationModel.id order ∧
  Application.id idEncode order =
    idEncode (Application.legacyId order) "order".
Proof. by split_and!. Qed.

(** Any decoder that inverts [idEncode] on the ['order'] type maps the
    public id back to [legacyId]. *)
Lemma application_id_decodes (idEncode : Z -> string -> string)
    (idDecode : string -> string -> option Z) (order : ApplicationModel.t) :
  (∀ n, idDecode (idEncode n "order") "order" = Some n) ->
  idDecode (Application.id idEncode order) "order" =
    Some (Application.legacyId order).
Proof. intros H. apply H. Qed.

(** The server the module exports is built from [{model}] alone: it
    answers itself and does not call [next] after [authorize] or
    [token]. *)
Example exported_oauth_server :
  OAuthServer_new (Some {[ "model" := VObj 2 ]}) = Return Fixture.responding.
Proof. vm_compute. reflexivity. Qed.

Example OAuthServer_needs_model :
  OAuthServer_new None =
    Throw (InvalidArgumentError "Missing parameter: `model`").
Proof. reflexivity. Qed.

Example String_of_negative : String_ (-5) = "-5".
Proof. reflexivity. Qed.

(** * Further properties *)

(** ** What a signed token holds *)

Section TokenContents.
Context (auth : AuthLib) (config : Config).

(** X1: the payload of an issued token has the four claims
    [access_token], [iat], [exp] and [sub] and no other, and its header
    has [alg], [typ] and [kid] and no other; nothing else of the token
    record, such as its refresh token, is in it. *)
Theorem issued_token_holds_four_claims
    (this : CustomTokenHandler) (model : TokenModel) (now : Z) :
  let t := valueOf (getTokenType auth config this model) now in
  dom (Jwt.payload t) =
    ({[ "access_token"; "iat"; "exp"; "sub" ]} : gset string) ∧
  dom (Jwt.header t) = ({[ "alg"; "typ"; "kid" ]} : gset string).
Proof.
  intros t. subst t. split.
  - apply set_eq. intros k. rewrite elem_of_dom, getTokenType_payload.
    repeat case_decide; subst.
    1-4: split; [intros _; set_solver | intros _; by eexists].
    split; [by intros [? ?] |].
    rewrite !elem_of_union, !elem_of_singleton.
    intros [[[?|?]|?]|?]; congruence.
  - rewrite getTokenType_header. rewrite dom_union_L, dom_insert_L.
    rewrite !dom_singleton_L. set_solver.
Qed.

(** X2: two issued tokens are the same exactly when they were issued at
    the same time for the same access-token id and the same user id; the
    handler and the rest of the record play no part. *)
Theorem issued_tokens_equal_iff
    (this1 this2 : CustomTokenHandler) (m1 m2 : TokenModel) (n1 n2 : Z) :
  valueOf (getTokenType auth config this1 m1) n1 =
  valueOf (getTokenType auth config this2 m2) n2 <->
  accessToken m1 = accessToken m2 ∧
  User.id (user m1) = User.id (user m2) ∧
  n1 = n2.
Proof.
  split.
  - intros Heq.
    pose proof (f_equal (fun t => Jwt.payload t !! "access_token") Heq) as Ha.
    pose proof (f_equal (fun t => Jwt.payload t !! "sub") Heq) as Hs.
    pose proof (f_equal (fun t => Jwt.payload t !! "iat") Heq) as Hi.
    cbv beta in Ha, Hs, Hi. rewrite !getTokenType_payload in Ha, Hs, Hi.
    simpl in Ha, Hs, Hi.
    injection Ha as Ha. injection Hs as Hs. injection Hi as Hi.
    split_and!; [done| |done].
    by apply (inj pretty).
  - intros (Ha & Hu & ->). cbn. by rewrite Ha, Hu.
Qed.


End TokenContents.

(** ** The options a token exchange runs with *)

Section EffectiveOptions.
Context (auth : AuthLib).

Lemma token_defaults_dom :
  dom (token_defaults auth) =
    ({[ "accessTokenLifetime"; "refreshTokenLifetime";
        "allowExtendedTokenAttributes"; "requireClientAuthentication" ]}
       : gset string).
Proof.
  unfold token_defaults. rewrite !dom_insert_L, dom_singleton_L.
  apply set_eq. intros k. rewrite !elem_of_union, !elem_of_singleton. tauto.
Qed.

(** X4: the options handed to the token handler have exactly the
    properties of the per-call options, of the server's construction
    options and of the four defaults; so both lifetimes,
    [allowExtendedTokenAttributes] and [requireClientAuthentication] are
    always among them. *)
Theorem token_options_properties
    (this : CustomOAuth2Server) (opts : option (gmap string Value)) :
  dom (token_options auth this opts) =
    from_option dom ∅ opts ∪
    (dom (options this) ∪
     ({[ "accessTokenLifetime"; "refreshTokenLifetime";
         "allowExtendedTokenAttributes"; "requireClientAuthentication" ]}
        : gset string)) ∧
  is_Some (token_options auth this opts !! "accessTokenLifetime") ∧
  is_Some (token_options auth this opts !! "refreshTokenLifetime") ∧
  is_Some (token_options auth this opts !! "allowExtendedTokenAttributes") ∧
  is_Some (token_options auth this opts !! "requireClientAuthentication").
Proof.
  assert (Hd : dom (token_options auth this opts) =
    from_option dom ∅ opts ∪
    (dom (options this) ∪
     ({[ "accessTokenLifetime"; "refreshTokenLifetime";
         "allowExtendedTokenAttributes"; "requireClientAuthentication" ]}
        : gset string))).
  { unfold token_options, assign. simpl. rewrite <- token_defaults_dom.
    destruct opts as [o|]; simpl.
    - by rewrite !dom_union_L.
    - by rewrite dom_union_L, union_empty_l_L. }
  split; [exact Hd|].
  split_and!; apply elem_of_dom; rewrite Hd;
    rewrite !elem_of_union, !elem_of_singleton; tauto.
Qed.

End EffectiveOptions.

(** ** Building a server *)

(** X5: building a server succeeds exactly when the options carry a truthy
    [model]; otherwise, and so for missing or empty options, it throws
    [InvalidArgumentError] with the message naming the parameter, and it
    throws nothing else. *)
Theorem OAuthServer_new_requires_model (opts : option (gmap string Value)) :
  ((∃ s, OAuthServer_new opts = Return s) <->
   truthy (prop (default ∅ opts) "model") = true) ∧
  (OAuthServer_new opts =
     Throw (InvalidArgumentError "Missing parameter: `model`") <->
   truthy (prop (default ∅ opts) "model") = false) ∧
  (∀ e, OAuthServer_new opts = Throw e ->
        e = InvalidArgumentError "Missing parameter: `model`") ∧
  OAuthServer_new None = OAuthServer_new (Some ∅).
Proof.
  unfold OAuthServer_new.
  destruct (truthy (prop (default ∅ opts) "model")); simpl; split_and!.
  - split; [done|]. intros _. by eexists.
  - split; intros [=].
  - intros e [=].
  - done.
  - split; [by intros [s [=]]|done].
  - done.
  - by intros e [= <-].
  - done.
Qed.



(** ** What one run of a middleware does *)

Section RunFacts.
Context (auth : AuthLib) (config : Config) (lib : Library).

Lemma handleResponse_calls r l :
  calls (handleResponse (mkWorld r l)).2 =
    l ++ if status r =? 302
         then [res_set (delete "location" (headers r));
               res_redirect (headers r !! "location")]
         else [res_set (headers r); res_status (VNum (status r));
               res_send (Some (body r))].
Proof.
  unfold handleResponse, get_response, set_response, call, mbind, M_bind.
  simpl. destruct (status r =? 302); simpl; by rewrite <- !app_assoc.
Qed.

Lemma handleError_calls this e b r :
  calls (handleError this e b (mkWorld r [])).2 =
    if useErrorHandler this then [next (Some e)]
    else (if b then [res_set (headers r)] else []) ++
         res_status (e_code e) ::
         if instanceof_UnauthorizedRequestError e then
           [res_set_field "WWW-Authenticate"
              ("Bearer realm=" +:+ dquote +:+ "service" +:+ dquote);
            res_send None]
         else
           [res_send (Some (BodyObject
              {[ "error" := VStr (e_name e);
                 "error_description" := VStr (e_message e) ]}))].
Proof.
  destruct (useErrorHandler this) eqn:Hu.
  - by rewrite (handleError_delegates _ _ _ _ Hu).
  - by rewrite (handleError_replies _ _ _ _ Hu).
Qed.

(** The log of a run, by the outcome of the engine operation. *)
Lemma run_log m this opts req :
  run (middleware auth config lib m this opts req) =
    match engine_of auth config lib m this opts req new_Response with
    | (Throw e, r') =>
        calls (handleError this e (passes_response m) (mkWorld r' [])).2
    | (Return v, r') =>
        res_locals_oauth (locals_key m) v ::
        match m with
        | Authenticate => [next None]
        | _ =>
          (if continueMiddleware this then [next None] else []) ++
          if status r' =? 302
          then [res_set (delete "location" (headers r'));
                res_redirect (headers r' !! "location")]
          else [res_set (headers r'); res_status (VNum (status r'));
                res_send (Some (body r'))]
        end
    end.
Proof.
  unfold run.
  destruct (engine_of auth config lib m this opts req new_Response)
    as [[e|v] r'] eqn:He.
  - by rewrite (middleware_failure _ _ _ _ _ _ _ _ _ He).
  - rewrite (middleware_success _ _ _ _ _ _ _ _ _ He).
    destruct m; [done|by rewrite handleResponse_calls..].
Qed.

Ltac by_outcome m this opts req :=
  rewrite run_log;
  destruct (engine_of auth config lib m this opts req new_Response)
    as [[e|v] r'];
  [rewrite handleError_calls;
   destruct (useErrorHandler this), (passes_response m),
     (instanceof_UnauthorizedRequestError e)
  |destruct m, (continueMiddleware this), (status r' =? 302)].

(** X7: in one run a middleware writes at most one reply and calls [next]
    at most once, whatever the engine operation does and however the
    server was configured. *)
Theorem run_replies_and_continues_at_most_once m this opts req :
  let log := run (middleware auth config lib m this opts req) in
  (replies log <= 1)%nat ∧ (nexts log <= 1)%nat.
Proof.
  intros log. subst log. unfold replies, nexts.
  by_outcome m this opts req; simpl; lia.
Qed.

(** X8: a run never ends without either a reply or a call of [next]: the
    request is answered or handed on. *)
Theorem run_replies_or_continues m this opts req :
  let log := run (middleware auth config lib m this opts req) in
  writes_reply log || passes_onward log = true.
Proof.
  intros log. subst log. unfold writes_reply, passes_onward.
  by_outcome m this opts req; reflexivity.
Qed.

(** X9: with the external error handler not enabled, [authorize] and
    [token] write exactly one reply in every run, whether the engine
    operation resolves or rejects and whether [continueMiddleware] is set
    or not. *)
Theorem answering_middleware_replies_once m this opts req :
  useErrorHandler this = false ->
  m ≠ Authenticate ->
  replies (run (middleware auth config lib m this opts req)) = 1%nat.
Proof.
  intros Hu Hm. unfold replies. rewrite run_log.
  destruct (engine_of auth config lib m this opts req new_Response)
    as [[e|v] r'].
  - rewrite handleError_calls, Hu.
    by destruct (passes_response m), (instanceof_UnauthorizedRequestError e).
  - by destruct m, (continueMiddleware this), (status r' =? 302).
Qed.

(** X10: [res.locals.oauth] is assigned in a run exactly when the engine
    operation resolved. *)
Theorem locals_set_iff_resolved m this opts req :
  existsb is_locals (run (middleware auth config lib m this opts req)) =
    match (engine_of auth config lib m this opts req new_Response).1 with
    | Return _ => true
    | Throw _ => false
    end.
Proof.
  by_outcome m this opts req; reflexivity.
Qed.

(** X11: [next()] without an error is called only after the engine
    operation resolved: always by [authenticate], and by [authorize] and
    [token] when [continueMiddleware] is set.  A rejected request is never
    handed on as if it had passed. *)
Theorem plain_next_only_after_success m this opts req :
  existsb is_plain_next
    (run (middleware auth config lib m this opts req)) =
    match (engine_of auth config lib m this opts req new_Response).1 with
    | Throw _ => false
    | Return _ =>
      match m with
      | Authenticate => true
      | _ => continueMiddleware this
      end
    end.
Proof.
  by_outcome m this opts req; reflexivity.
Qed.

(** X12: when the engine operation of [authorize] or [token] resolves,
    the reply is the engine's protocol response: a redirect to its
    [location] header when its status is 302, and otherwise its headers,
    status and body, as [handleResponse] writes them. *)
Theorem successful_reply_is_engine_response m this opts req v r' :
  m ≠ Authenticate ->
  engine_of auth config lib m this opts req new_Response = (Return v, r') ->
  run (middleware auth config lib m this opts req) =
    res_locals_oauth (locals_key m) v ::
    (if continueMiddleware this then [next None] else []) ++
    if status r' =? 302
    then [res_set (delete "location" (headers r'));
          res_redirect (headers r' !! "location")]
    else [res_set (headers r'); res_status (VNum (status r'));
          res_send (Some (body r'))].
Proof.
  intros Hm He. rewrite run_log, He. by destruct m.
Qed.

(** X13: the server the module exports is built with neither flag, so its
    middlewares never call [next(e)], and its [authorize] and [token]
    never call [next] at all and write exactly one reply. *)
Theorem exported_oauth_answers_itself (model : positive) :
  ∃ s, oauth model = Return s ∧
       useErrorHandler s = false ∧ continueMiddleware s = false ∧
       ∀ m opts req,
         let log := run (middleware auth config lib m s opts req) in
         existsb is_error_next log = false ∧
         (m ≠ Authenticate -> nexts log = 0%nat ∧ replies log = 1%nat).
Proof.
  eexists. split; [reflexivity|]. split; [reflexivity|].
  split; [reflexivity|].
  intros m opts req log. subst log. unfold nexts, replies.
  rewrite run_log.
  match goal with
  | |- context [engine_of auth config lib m ?s opts req new_Response] =>
      destruct (engine_of auth config lib m s opts req new_Response)
        as [[e|v] r']
  end.
  - rewrite handleError_calls. simpl.
    destruct (passes_response m), (instanceof_UnauthorizedRequestError e);
      by split.
  - simpl. destruct m, (status r' =? 302); split; try done; by intros [].
Qed.

End RunFacts.

Lemma answering_middleware_replies_once_witness :
  replies (run (middleware Fixture.auth Fixture.config Fixture.granting
                  Token Fixture.continuing None Fixture.signed_in)) = 1%nat ∧
  replies (run (middleware Fixture.auth Fixture.config
                  (Fixture.rejecting Fixture.invalid_grant)
                  Authorize Fixture.responding None Fixture.signed_in))
    = 1%nat.
Proof.
  split.
  - exact (answering_middleware_replies_once
             Fixture.auth Fixture.config Fixture.granting
             Token Fixture.continuing None Fixture.signed_in
             eq_refl ltac:(discriminate)).
  - exact (answering_middleware_replies_once
             Fixture.auth Fixture.config
             (Fixture.rejecting Fixture.invalid_grant)
             Authorize Fixture.responding None Fixture.signed_in
             eq_refl ltac:(discriminate)).
Defined.

Lemma successful_reply_is_engine_response_witness :
  run (middleware Fixture.auth Fixture.config Fixture.granting
         Token Fixture.continuing None Fixture.signed_in) =
    [res_locals_oauth "token" (VObj 7);
     next None;
     res_set {[ "cache-control" := "no-store"; "pragma" := "no-cache" ]};
     res_status (VNum 200);
     res_send (Some (BodyJwt
       (valueOf (getTokenType Fixture.auth Fixture.config
                   (CustomTokenHandler_new ∅) Fixture.model) 1000)))].
Proof.
  exact (successful_reply_is_engine_response
           Fixture.auth Fixture.config Fixture.granting
           Token Fixture.continuing None Fixture.signed_in
           (VObj 7)
           (mkResponse 200
              {[ "cache-control" := "no-store"; "pragma" := "no-cache" ]}
              (BodyJwt
                 (valueOf (getTokenType Fixture.auth Fixture.config
                             (CustomTokenHandler_new ∅) Fixture.model)
                          1000)))
           ltac:(discriminate) eq_refl).
Defined.

Lemma exported_oauth_answers_itself_witness :
  ∃ s, oauth 2 = Return s ∧
       nexts (run (middleware Fixture.auth Fixture.config Fixture.granting
                     Authorize s None Fixture.signed_in)) = 0%nat ∧
       replies (run (middleware Fixture.auth Fixture.config Fixture.granting
                       Authorize s None Fixture.signed_in)) = 1%nat.
Proof.
  destruct (exported_oauth_answers_itself
              Fixture.auth Fixture.config Fixture.granting 2)
    as (s & Hs & _ & _ & H).
  exists s. split; [exact Hs|].
  exact (proj2 (H Authorize None Fixture.signed_in) ltac:(discriminate)).
Defined.

(** ** Redirects *)

(** X14: a 302 protocol response without a [location] header is still
    answered by a redirect, to [undefined]; its headers are written as
    they are and the response is left unchanged. *)
Theorem handleResponse_redirect_without_location (w : World) :
  status (response w) = 302 ->
  headers (response w) !! "location" = None ->
  handleResponse w =
    (Return tt,
     mkWorld (response w)
             (calls w ++ [res_set (headers (response w));
                          res_redirect None])).
Proof.
  intros Hs Hl. destruct w as [[st hs b] l]. simpl in *. subst st.
  unfold handleResponse, get_response, set_response, call, mbind, M_bind.
  simpl. rewrite Hl, (delete_id _ _ Hl). by rewrite <- !app_assoc.
Qed.

Lemma handleResponse_redirect_without_location_witness :
  handleResponse (mkWorld (mkResponse 302 {[ "vary" := "Origin" ]}
                                      (BodyObject ∅)) []) =
    (Return tt,
     mkWorld (mkResponse 302 {[ "vary" := "Origin" ]} (BodyObject ∅))
             [res_set {[ "vary" := "Origin" ]}; res_redirect None]).
Proof.
  exact (handleResponse_redirect_without_location
           (mkWorld (mkResponse 302 {[ "vary" := "Origin" ]}
                                (BodyObject ∅)) [])
           eq_refl eq_refl).
Defined.

(** X15: [handleResponse] uses up the [location] header of the shared
    protocol response: run a second time on a 302 response it writes the
    same remaining headers and redirects to [undefined].  On any other
    response a second run repeats the first and the response stays as it
    is. *)
Theorem handleResponse_twice (w : World) :
  let r := response w in
  let w2 := ((handleResponse ;; handleResponse) w).2 in
  (status r = 302 ->
     calls w2 = calls w ++ [res_set (delete "location" (headers r));
                            res_redirect (headers r !! "location");
                            res_set (delete "location" (headers r));
                            res_redirect None] ∧
     response w2 = mkResponse 302 (delete "location" (headers r)) (body r)) ∧
  (status r ≠ 302 ->
     calls w2 = calls w ++ [res_set (headers r);
                            res_status (VNum (status r));
                            res_send (Some (body r));
                            res_set (headers r);
                            res_status (VNum (status r));
                            res_send (Some (body r))] ∧
     response w2 = r).
Proof.
  intros r w2. subst r w2. destruct w as [[st hs b] l]. simpl.
  unfold handleResponse, get_response, set_response, call, mbind, M_bind.
  simpl. split; intros Hs.
  - subst st. simpl. rewrite lookup_delete_eq.
    rewrite (delete_id (delete "location" hs)) by apply lookup_delete_eq.
    split; [by rewrite <- !app_assoc|done].
  - apply Z.eqb_neq in Hs. rewrite Hs. simpl. rewrite Hs. simpl.
    split; [by rewrite <- !app_assoc|done].
Qed.

Lemma handleResponse_twice_witness :
  calls ((handleResponse ;; handleResponse)
           (mkWorld (mkResponse 302 {[ "location" := "https://x/cb" ]}
                                (BodyObject ∅)) [])).2 =
    [res_set (delete "location" {[ "location" := "https://x/cb" ]});
     res_redirect (Some "https://x/cb");
     res_set (delete "location" {[ "location" := "https://x/cb" ]});
     res_redirect None] ∧
  response ((handleResponse ;; handleResponse)
              (mkWorld (mkResponse 200 ∅ (BodyObject ∅)) [])).2 =
    mkResponse 200 ∅ (BodyObject ∅).
Proof.
  split.
  - exact (proj1 (proj1 (handleResponse_twice
             (mkWorld (mkResponse 302 {[ "location" := "https://x/cb" ]}
                                  (BodyObject ∅)) [])) eq_refl)).
  - exact (proj2 (proj2 (handleResponse_twice
             (mkWorld (mkResponse 200 ∅ (BodyObject ∅)) []))
             ltac:(discriminate))).
Defined.

(** ** More on the [oauthAuthorization] field *)

Section MoreSessionFacts.
Context (db : Database).

(** X16: the field resolves to [null] exactly when the requester is
    signed out; the tokens stored do not matter then. *)
Theorem oauthAuthorization_null_iff_signed_out
    (application : ApplicationModel.t) (req : Request) :
  Application.oauthAuthorization db application req = RNull <->
  remoteUser req = None.
Proof.
  unfold Application.oauthAuthorization.
  destruct (remoteUser req) as [u|]; [|done].
  by destruct (UserToken_findOne db _ _).
Qed.

(** X17: for signed-in requesters the field depends on the application
    only through its id and on the requester only through the user id.
    It is not gated by ownership: the requester's account and the
    application's owning account are not compared. *)
Theorem oauthAuthorization_ignores_ownership
    (a1 a2 : ApplicationModel.t) (r1 r2 : Request) (u1 u2 : User.t) :
  remoteUser r1 = Some u1 ->
  remoteUser r2 = Some u2 ->
  ApplicationModel.id a1 = ApplicationModel.id a2 ->
  User.id u1 = User.id u2 ->
  Application.oauthAuthorization db a1 r1 =
  Application.oauthAuthorization db a2 r2.
Proof.
  intros H1 H2 Ha Hu. unfold Application.oauthAuthorization.
  by rewrite H1, H2, Ha, Hu.
Qed.

(** X18: whatever the field discloses comes from a stored token of the
    requester for this application: the requester is signed in, and the
    object is built from a token whose [UserId] is the requester's id and
    whose [ApplicationId] is the application's id. *)
Theorem oauthAuthorization_discloses_own_token
    (application : ApplicationModel.t) (req : Request)
    (s : OAuthAuthorization) :
  Application.oauthAuthorization db application req = RValue s ->
  ∃ u t,
    remoteUser req = Some u ∧
    t ∈ UserTokens db ∧
    UserToken.ApplicationId t = ApplicationModel.id application ∧
    UserToken.UserId t = User.id u ∧
    s = mkOAuthAuthorization
          (Collectives db !! User.CollectiveId (UserToken.user t))
          (UserToken.client t)
          (UserToken.accessTokenExpiresAt t)
          (UserToken.createdAt t)
          (UserToken.updatedAt t).
Proof.
  unfold Application.oauthAuthorization.
  destruct (remoteUser req) as [u|]; [|done].
  destruct (UserToken_findOne db _ _) as [t|] eqn:Hf; [|done].
  intros [= <-]. apply UserToken_findOne_Some in Hf as (Ht & Ha & Hu).
  by exists u, t.
Qed.

End MoreSessionFacts.

Lemma oauthAuthorization_ignores_ownership_witness :
  Application.oauthAuthorization Fixture.db Fixture.app Fixture.signed_in =
  Application.oauthAuthorization Fixture.db
    (ApplicationModel.mk 11 "oAuth" None None None None None None 999)
    (mkRequest (Some (User.mk 42 555)) ∅).
Proof.
  exact (oauthAuthorization_ignores_ownership Fixture.db
           Fixture.app
           (ApplicationModel.mk 11 "oAuth" None None None None None None 999)
           Fixture.signed_in (mkRequest (Some (User.mk 42 555)) ∅)
           Fixture.alice (User.mk 42 555)
           eq_refl eq_refl eq_refl eq_refl).
Defined.

Lemma oauthAuthorization_discloses_own_token_witness :
  ∃ u t,
    remoteUser Fixture.signed_in = Some u ∧
    t ∈ UserTokens Fixture.db ∧
    UserToken.ApplicationId t = 11 ∧
    UserToken.UserId t = User.id u ∧
    mkOAuthAuthorization (Some Fixture.collective7) Fixture.app 9000 100 200 =
      mkOAuthAuthorization
        (Collectives Fixture.db !! User.CollectiveId (UserToken.user t))
        (UserToken.client t)
        (UserToken.accessTokenExpiresAt t)
        (UserToken.createdAt t)
        (UserToken.updatedAt t).
Proof.
  exact (oauthAuthorization_discloses_own_token Fixture.db Fixture.app
           Fixture.signed_in
           (mkOAuthAuthorization (Some Fixture.collective7) Fixture.app
                                 9000 100 200)
           eq_refl).
Defined.

(** ** A signed-out authorize request *)

(** X19: when the engine's [authorize] rejects with what
    [authorizeAuthenticateHandler] throws for a signed-out request, and
    the external error handler is not enabled, the middleware answers
    with status 401, the [WWW-Authenticate] challenge and no body, after
    the protocol response's headers; no code reaches [res.locals.oauth]
    and [next] is not called. *)
Theorem signed_out_authorize_is_challenged
    (auth : AuthLib) (config : Config) (lib : Library)
    (this : OAuthServer) (opts : option (gmap string Value))
    (req : Request) (e : Error) (r' : Response) :
  useErrorHandler this = false ->
  authorizeAuthenticateHandler_handle req = Throw e ->
  engine_of auth config lib Authorize this opts req new_Response =
    (Throw e, r') ->
  remoteUser req = None ∧
  run (middleware auth config lib Authorize this opts req) =
    [res_set (headers r');
     res_status (VNum 401);
     res_set_field "WWW-Authenticate"
       ("Bearer realm=" +:+ dquote +:+ "service" +:+ dquote);
     res_send None].
Proof.
  intros Hu Hh He. unfold authorizeAuthenticateHandler_handle in Hh.
  destruct (remoteUser req); [done|]. injection Hh as <-.
  split; [done|].
  rewrite run_log, He, handleError_calls, Hu. reflexivity.
Qed.

Lemma signed_out_authorize_is_challenged_witness :
  run (middleware Fixture.auth Fixture.config
         (Fixture.rejecting (UnauthorizedRequestError "You must be signed in"))
         Authorize Fixture.responding None Fixture.signed_out) =
    [res_set ∅;
     res_status (VNum 401);
     res_set_field "WWW-Authenticate"
       ("Bearer realm=" +:+ dquote +:+ "service" +:+ dquote);
     res_send None].
Proof.
  exact (proj2 (signed_out_authorize_is_challenged
           Fixture.auth Fixture.config
           (Fixture.rejecting
              (UnauthorizedRequestError "You must be signed in"))
           Fixture.responding None Fixture.signed_out
           (UnauthorizedRequestError "You must be signed in")
           new_Response eq_refl eq_refl eq_refl)).
Defined.
